(** * HTTP-Prober: a shallow embedding of [main.py]

    The prober loads a YAML configuration, registers three Prometheus
    metric families, and runs a loop that starts one thread per tick; each
    thread performs a GET, classifies its outcome by the [except] clauses
    of [http_request], and updates the metric registry.

    Modelling choices.
    - Python exception classes are an enumeration of the classes the code
      meets ([known]) together with user-defined classes built from any
      bases ([Custom]); [isinstance] follows the base lists.
    - A Python float is a rational or one of the IEEE specials (inf, -inf,
      nan); rounding is not modelled, the comparisons and [1 / x] follow
      IEEE on the specials.
    - The Prometheus registry is a map from metric name to a family; a
      family maps a list of label values to a count (counter) or to the
      list of observations (histogram). *)

From Stdlib Require Import QArith Qround Ascii.
From stdpp Require Import base list gmap strings pretty.

Open Scope string_scope.
#[local] Set Warnings "-register-all".

(** ** Python exception classes *)

Inductive known :=
| BaseException | Exception | SystemExit | KeyboardInterrupt | GeneratorExit
| ArithmeticError | ZeroDivisionError | OverflowError
| LookupError | KeyError | TypeError | ValueError | MemoryError
| OSError | FileNotFoundError | PermissionError
| ArgumentTypeError          (* argparse.ArgumentTypeError *)
| YAMLError                  (* yaml.YAMLError *)
| Urllib3HTTPError           (* urllib3.exceptions.HTTPError *)
| RequestException | HTTPError | ConnectionError | ProxyError | SSLError
| Timeout | ConnectTimeout | ReadTimeout | URLRequired | TooManyRedirects
| MissingSchema | InvalidSchema | InvalidURL | InvalidHeader
| ChunkedEncodingError | ContentDecodingError | StreamConsumedError
| RetryError | UnrewindableBodyError.

#[global] Instance known_eq_dec : EqDecision known.
Proof. solve_decision. Defined.

(** Direct bases, as declared by the builtins, argparse, PyYAML, urllib3
    and [requests.exceptions] ([IOError] is [OSError]). *)
Definition bases (k : known) : list known :=
  match k with
  | BaseException => []
  | Exception | SystemExit | KeyboardInterrupt | GeneratorExit => [BaseException]
  | ArithmeticError | LookupError | TypeError | ValueError | MemoryError
  | OSError | ArgumentTypeError | YAMLError | Urllib3HTTPError => [Exception]
  | ZeroDivisionError | OverflowError => [ArithmeticError]
  | KeyError => [LookupError]
  | FileNotFoundError | PermissionError => [OSError]
  | RequestException => [OSError]
  | HTTPError | ConnectionError | Timeout | URLRequired | TooManyRedirects
  | ChunkedEncodingError | RetryError | UnrewindableBodyError => [RequestException]
  | ProxyError | SSLError => [ConnectionError]
  | ConnectTimeout => [ConnectionError; Timeout]
  | ReadTimeout => [Timeout]
  | MissingSchema | InvalidSchema | InvalidURL | InvalidHeader =>
      [RequestException; ValueError]
  | ContentDecodingError => [RequestException; Urllib3HTTPError]
  | StreamConsumedError => [RequestException; TypeError]
  end.

(** [issubclass] on the known classes; the hierarchy above has depth 5, the
    fuel is larger than that. *)
Fixpoint known_sub (fuel : nat) (c h : known) : bool :=
  if decide (c = h) then true else
  match fuel with
  | O => false
  | S f => existsb (fun p => known_sub f p h) (bases c)
  end.

Definition issubclass_known (c h : known) : bool := known_sub 8 c h.

(** The class of a raised exception: a known class, or a class defined
    elsewhere from the given bases. *)
Inductive pycls :=
| Known (k : known)
| Custom (bs : list pycls).

Fixpoint isinstance (c : pycls) (h : known) : bool :=
  match c with
  | Known k => issubclass_known k h
  | Custom bs =>
      (fix go (l : list pycls) : bool :=
         match l with
         | [] => false
         | b :: l' => isinstance b h || go l'
         end) bs
  end.

(** Result of a Python computation: a value or a raised exception. *)
Inductive result (A : Type) :=
| Ok (a : A)
| Raise (c : pycls).
Arguments Ok {A} a.
Arguments Raise {A} c.

Definition bind {A B} (r : result A) (f : A -> result B) : result B :=
  match r with Ok a => f a | Raise c => Raise c end.

Notation "'let!' x := r 'in' k" := (bind r (fun x => k))
  (at level 200, x name, r at level 100, k at level 200).

(** ** The [except] clauses of [http_request] (lines 165-176) *)

Definition handlers : list (known * string) :=
  [(HTTPError, "http"); (ConnectionError, "connection");
   (TooManyRedirects, "redirects"); (Timeout, "timeout");
   (RequestException, "request"); (Exception, "unknown")].

(** Python tries the clauses in order and runs the first whose class the
    exception is an instance of; with none, the exception propagates. *)
Fixpoint first_handler (hs : list (known * string)) (c : pycls)
  : option (known * string) :=
  match hs with
  | [] => None
  | (h, l) :: hs' => if isinstance c h then Some (h, l) else first_handler hs' c
  end.

Definition classify (c : pycls) : option string :=
  option_map snd (first_handler handlers c).


(** ** The Prometheus registry (lines 85-98) *)

Inductive family :=
| FCounter (m : gmap (list string) nat)
| FHistogram (m : gmap (list string) (list Q)).

Abbreviation registry := (gmap string family).

Definition APP_METRIC_PREFIX : string := "http_probe".
Definition http_requests_completed : string :=
  String.append APP_METRIC_PREFIX "_http_requests_completed".
Definition http_requests_errors : string :=
  String.append APP_METRIC_PREFIX "_http_requests_errors".
Definition latency_histogram : string :=
  String.append APP_METRIC_PREFIX "_latency_seconds".

(** Module import registers the three families, each with no labelled
    series yet. *)
Definition registry_init : registry :=
  <[latency_histogram := FHistogram ∅]>
  (<[http_requests_errors := FCounter ∅]>
   (<[http_requests_completed := FCounter ∅]> ∅)).

(** [family.labels(lbls).inc()]: the child series is created at 0 on first
    use, then incremented. *)
Definition counter_inc (name : string) (lbls : list string) (r : registry)
  : registry :=
  match r !! name with
  | Some (FCounter m) =>
      <[name := FCounter (<[lbls := default 0 (m !! lbls) + 1]> m)]> r
  | _ => r
  end.

(** [family.labels(lbls).observe(v)]. *)
Definition histogram_observe (name : string) (lbls : list string) (v : Q)
  (r : registry) : registry :=
  match r !! name with
  | Some (FHistogram m) =>
      <[name := FHistogram (<[lbls := app (default [] (m !! lbls)) [v]]> m)]> r
  | _ => r
  end.

Definition counter_value (name : string) (lbls : list string) (r : registry)
  : nat :=
  match r !! name with
  | Some (FCounter m) => default 0 (m !! lbls)
  | _ => 0
  end.

Definition observations (name : string) (lbls : list string) (r : registry)
  : list Q :=
  match r !! name with
  | Some (FHistogram m) => default [] (m !! lbls)
  | _ => []
  end.

(** ** [http_request] (lines 155-176) *)

(** What the world does during one call: the value of [time.time()] at
    entry and after the response, the outcome of [requests.get] (a status
    code or a raised exception), whether the completion increment or the
    histogram observation raise, and whether the error increment in the
    [except] clause that runs raises. *)
Record probe_env := {
  t_start : Q;
  get_result : result Z;
  inc_exn : option pycls;
  t_end : Q;
  observe_exn : option pycls;
  handler_exn : option pycls
}.

(** The [except] clauses applied to an exception [c] raised in the [try]
    body, with the registry as the body left it. [hx] is what the
    clause's own [http_requests_errors.labels(...).inc()] raises, if
    anything: that exception then leaves the clause, and the call, with
    no error counted. *)
Definition handle (endpoint : string) (c : pycls) (hx : option pycls) (r : registry)
  : registry * option pycls :=
  match first_handler handlers c with
  | Some (_, lbl) =>
      match hx with
      | None => (counter_inc http_requests_errors ["GET"; endpoint; lbl] r, None)
      | Some c' => (r, Some c')
      end
  | None => (r, Some c)
  end.

(** The final registry, and the exception escaping the call if any. *)
Definition http_request (endpoint : string) (e : probe_env) (r : registry)
  : registry * option pycls :=
  match get_result e with
  | Raise c => handle endpoint c (handler_exn e) r
  | Ok code =>
      match inc_exn e with
      | Some c => handle endpoint c (handler_exn e) r
      | None =>
          let r1 := counter_inc http_requests_completed
                      ["GET"; endpoint; pretty code] r in
          let latency := (t_end e - t_start e)%Q in
          match observe_exn e with
          | Some c => handle endpoint c (handler_exn e) r1
          | None => (histogram_observe latency_histogram ["GET"; endpoint] latency r1, None)
          end
      end
  end.

(** The registry holds the three families with their kinds. *)
Definition registry_wf (r : registry) : Prop :=
  (exists m, r !! http_requests_completed = Some (FCounter m)) /\
  (exists m, r !! http_requests_errors = Some (FCounter m)) /\
  (exists m, r !! latency_histogram = Some (FHistogram m)).

(** ** Python values from the YAML configuration *)

Inductive pyfloat :=
| Fin (q : Q)
| PInf
| NInf
| NaN.

(** A loaded YAML document: mappings are dicts with string keys, kept in
    insertion order. *)
Inductive yval :=
| YNone
| YBool (b : bool)
| YInt (z : Z)
| YFloat (f : pyfloat)
| YStr (s : string)
| YList (l : list yval)
| YDict (kvs : list (string * yval)).

Definition Exc (k : known) {A} : result A := Raise (Known k).

Fixpoint assoc_get (k : string) (kvs : list (string * yval)) : option yval :=
  match kvs with
  | [] => None
  | (k', v) :: t => if String.eqb k k' then Some v else assoc_get k t
  end.

(** [d[k] = v]: an existing key keeps its place, a new one goes last. *)
Fixpoint assoc_set (k : string) (v : yval) (kvs : list (string * yval))
  : list (string * yval) :=
  match kvs with
  | [] => [(k, v)]
  | (k', v') :: t =>
      if String.eqb k k' then (k, v) :: t else (k', v') :: assoc_set k v t
  end.

(** [key in v] for a string [key]: keys of a dict, substring of a str,
    element of a list; a [TypeError] for the other types. *)
Definition py_contains (key : string) (v : yval) : result bool :=
  match v with
  | YDict kvs => Ok (bool_decide (is_Some (assoc_get key kvs)))
  | YStr s => Ok (bool_decide (is_Some (String.index 0 key s)))
  | YList l => Ok (existsb (fun x => match x with
                                     | YStr s => String.eqb s key
                                     | _ => false end) l)
  | _ => Exc TypeError
  end.

(** [v[key]] for a string [key]. *)
Definition py_getitem (v : yval) (key : string) : result yval :=
  match v with
  | YDict kvs => match assoc_get key kvs with
                 | Some x => Ok x
                 | None => Exc KeyError
                 end
  | _ => Exc TypeError
  end.

(** [v[key] = x]: the dict after the assignment. *)
Definition py_setitem (v : yval) (key : string) (x : yval) : result yval :=
  match v with
  | YDict kvs => Ok (YDict (assoc_set key x kvs))
  | _ => Exc TypeError
  end.

(** A sub-dict is shared with its parent: after mutating [parent[key]]
    through an alias, the parent holds the mutated dict. *)
Definition write_back (parent : yval) (key : string) (child : yval) : yval :=
  match parent with
  | YDict kvs => YDict (assoc_set key child kvs)
  | _ => parent
  end.

(** *** [int()] and [float()] of strings

    Surrounding blanks, an optional sign, decimal digits, and for [float]
    an optional fractional part or the words inf, infinity and nan in any
    case. Digit-group underscores and exponents are not modelled. *)

Definition is_blank (a : Ascii.ascii) : bool :=
  match Ascii.nat_of_ascii a with 32 | 9 | 10 | 13 => true | _ => false end.

Fixpoint strip_left (s : string) : string :=
  match s with
  | String a s' => if is_blank a then strip_left s' else s
  | EmptyString => EmptyString
  end.

Definition strip (s : string) : string :=
  String.rev (strip_left (String.rev (strip_left s))).

Definition digit_value (a : Ascii.ascii) : option Z :=
  let n := Ascii.nat_of_ascii a in
  if Nat.leb 48 n && Nat.leb n 57 then Some (Z.of_nat (n - 48)) else None.

(** Digits of [s] read from the left onto [acc]; with their count. *)
Fixpoint digits (s : string) (acc : Z) (n : nat) : option (Z * nat) :=
  match s with
  | EmptyString => if decide (n = 0) then None else Some (acc, n)
  | String a s' =>
      match digit_value a with
      | Some d => digits s' (10 * acc + d)%Z (S n)
      | None => None
      end
  end.

Definition split_sign (s : string) : Z * string :=
  match s with
  | String a s' =>
      if Ascii.eqb a "-"%char then (-1, s')%Z
      else if Ascii.eqb a "+"%char then (1, s')%Z
      else (1%Z, s)
  | EmptyString => (1%Z, s)
  end.

Definition parse_int (s : string) : option Z :=
  let '(sg, body) := split_sign (strip s) in
  option_map (fun '(z, _) => (sg * z)%Z) (digits body 0 0).

Fixpoint lower (s : string) : string :=
  match s with
  | EmptyString => EmptyString
  | String a s' =>
      let n := Ascii.nat_of_ascii a in
      String (if Nat.leb 65 n && Nat.leb n 90 then Ascii.ascii_of_nat (n + 32) else a)
             (lower s')
  end.

Definition parse_float (s : string) : option pyfloat :=
  let '(sg, body) := split_sign (strip s) in
  let w := lower body in
  if String.eqb w "inf" || String.eqb w "infinity" then
    Some (if Z.eqb sg 1 then PInf else NInf)
  else if String.eqb w "nan" then Some NaN
  else
    match String.index 0 "." body with
    | None => option_map (fun '(z, _) => Fin (inject_Z (sg * z))) (digits body 0 0)
    | Some i =>
        let ip := String.substring 0 i body in
        let fp := String.substring (S i) (String.length body - S i) body in
        match (if String.eqb ip "" then Some (0%Z, 0) else digits ip 0 0),
              (if String.eqb fp "" then Some (0%Z, 0) else digits fp 0 0) with
        | Some (a, na), Some (b, nb) =>
            if decide (na + nb = 0) then None
            else Some (Fin (inject_Z sg * (inject_Z a + inject_Z b / inject_Z (10 ^ Z.of_nat nb))))
        | _, _ => None
        end
    end.

(** [int(v)]. *)
Definition py_int (v : yval) : result Z :=
  match v with
  | YBool b => Ok (if b then 1 else 0)%Z
  | YInt z => Ok z
  | YFloat (Fin q) => Ok (Z.quot (Qnum q) (Zpos (Qden q)))
  | YFloat NaN => Exc ValueError
  | YFloat _ => Exc OverflowError
  | YStr s => match parse_int s with Some z => Ok z | None => Exc ValueError end
  | _ => Exc TypeError
  end.

(** [float(v)]. *)
Definition py_float (v : yval) : result pyfloat :=
  match v with
  | YBool b => Ok (Fin (if b then 1 else 0))
  | YInt z => Ok (Fin (inject_Z z))
  | YFloat f => Ok f
  | YStr s => match parse_float s with Some f => Ok f | None => Exc ValueError end
  | _ => Exc TypeError
  end.

(** [f <= 0] (every comparison with nan is false). *)
Definition float_le_zero (f : pyfloat) : bool :=
  match f with
  | Fin q => Qle_bool q 0
  | PInf | NaN => false
  | NInf => true
  end.

(** ** Validators (lines 15-72)

    The [try] bodies raise [ArgumentTypeError] themselves; their
    [except ValueError] clauses catch only the [ValueError] of the
    conversion. *)

Definition check_port (port : yval) : result yval :=
  match py_int port with
  | Raise c => if isinstance c ValueError then Exc ArgumentTypeError else Raise c
  | Ok p =>
      if (p <? 1)%Z then Exc ArgumentTypeError
      else if (65535 <? p)%Z then Exc ArgumentTypeError
      else Ok (YInt p)
  end.

Definition check_frequency (frequency : yval) : result yval :=
  match py_float frequency with
  | Raise c => if isinstance c ValueError then Exc ArgumentTypeError else Raise c
  | Ok f => if float_le_zero f then Exc ArgumentTypeError else Ok (YFloat f)
  end.

Definition check_timeout (timeout : yval) : result yval :=
  match py_float timeout with
  | Raise c => if isinstance c ValueError then Exc ArgumentTypeError else Raise c
  | Ok f => if float_le_zero f then Exc ArgumentTypeError else Ok (YFloat f)
  end.

(** ** [verify_config] (lines 127-152) *)

(** [t[key] = dflt if key not in t else chk(t[key])]: the dict after it. *)
Definition set_field (t : yval) (key : string) (dflt : yval)
  (chk : yval -> result yval) : result yval :=
  bind (py_contains key t) (fun present =>
  bind (if present then bind (py_getitem t key) chk else Ok dflt) (fun v =>
  py_setitem t key v)).

Definition verify_server (c : yval) : result yval :=
  let! has_server := py_contains "server" c in
  let! has_port :=
    (if has_server then let! srv := py_getitem c "server" in py_contains "port" srv
     else Ok false) in
  if has_port then
    let! srv := py_getitem c "server" in
    let! p := py_getitem srv "port" in
    let! p' := check_port p in
    let! srv' := py_setitem srv "port" p' in
    Ok (write_back c "server" srv')
  else py_setitem c "server" (YDict [("port", YInt 8000)]).

(** The configuration as mutated in place, and the verdict. *)
Definition verify_config (configuration : yval) : result (yval * bool) :=
  match configuration with
  | YDict _ =>
      let! c := verify_server configuration in
      let! has_target := py_contains "target" c in
      if negb has_target then Ok (c, false) else
      let! target := py_getitem c "target" in
      let! has_address := py_contains "address" target in
      if negb has_address then Ok (c, false) else
      let! t1 := set_field target "port" (YInt 80) check_port in
      let! t2 := set_field t1 "pathname" (YStr "/") Ok in
      let! t3 := set_field t2 "protocol" (YStr "http") Ok in
      let! t4 := set_field t3 "frequency" (YInt 1) check_frequency in
      let! t5 := set_field t4 "timeout" (YInt 1) check_timeout in
      let! t6 := set_field t5 "verify_ssl" (YBool true) Ok in
      Ok (write_back c "target" t6, true)
  | _ => Ok (configuration, false)
  end.

(** ** [load_configuration] (lines 101-116) *)

(** What [open] and [yaml.load] do with the configuration file. *)
Inductive config_file :=
| OpenFails (c : pycls)          (* open() raises, e.g. FileNotFoundError *)
| Loaded (doc : result yval).    (* yaml.load returns a value or raises *)

(** The [except IOError] clause. *)
Definition except_ioerror (c : pycls) : result bool :=
  if isinstance c OSError then Ok false else Raise c.

(** The global [config] afterwards, and the call's result. *)
Definition load_configuration (config : yval) (file : config_file)
  : yval * result bool :=
  match file with
  | OpenFails c | Loaded (Raise c) => (config, except_ioerror c)
  | Loaded (Ok configuration) =>
      match verify_config configuration with
      | Raise c => (config, except_ioerror c)
      | Ok (_, false) => (config, Ok false)
      | Ok (configuration', true) =>
          (* config = configuration; then [not ...['verify_ssl']], which
             only decides whether urllib3 warnings are silenced *)
          match bind (py_getitem configuration' "target")
                     (fun t => py_getitem t "verify_ssl") with
          | Raise c => (configuration', except_ioerror c)
          | Ok _ => (configuration', Ok true)
          end
      end
  end.

(** ** Process start-up and reload (lines 119-124, 195-209) *)

Inductive process :=
| Running (config : yval)        (* the loop of [main] runs on this config *)
| Exited (status : Z).           (* the process has terminated *)

(** [sys.exit(-1)] exits with status 255; an uncaught exception ends the
    interpreter with status 1. *)
Definition startup (file : config_file) : process :=
  match load_configuration (YDict []) file with
  | (config, Ok true) => Running config
  | (_, Ok false) => Exited 255
  | (_, Raise _) => Exited 1
  end.

(** SIGHUP runs [reload_configuration] in the main thread; an exception
    escaping the handler is raised in [main] where it was interrupted,
    which has no handler, so the process terminates. *)
Definition reload (p : process) (file : config_file) : process :=
  match p with
  | Running config =>
      match load_configuration config file with
      | (config', Ok _) => Running config'
      | (_, Raise _) => Exited 1
      end
  | Exited s => Exited s
  end.

(** ** The loop of [main] (lines 179-192) *)

(** [str(v)] as an f-string field renders it. A non-integral finite float
    is rendered as a fraction (Python prints its shortest decimal); no
    property below depends on that text. *)
Definition float_str (f : pyfloat) : string :=
  match f with
  | Fin q =>
      if decide (Qden q = 1%positive) then String.append (pretty (Qnum q)) ".0"
      else String.append (pretty (Qnum q)) (String.append "/" (pretty (Zpos (Qden q))))
  | PInf => "inf"
  | NInf => "-inf"
  | NaN => "nan"
  end.

Fixpoint join (sep : string) (l : list string) : string :=
  match l with
  | [] => ""
  | [x] => x
  | x :: l' => String.append x (String.append sep (join sep l'))
  end.

Fixpoint py_repr (v : yval) : string :=
  match v with
  | YNone => "None"
  | YBool b => if b then "True" else "False"
  | YInt z => pretty z
  | YFloat f => float_str f
  | YStr s => String.append "'" (String.append s "'")
  | YList l => String.append "[" (String.append (join ", " (map py_repr l)) "]")
  | YDict kvs =>
      String.append "{"
        (String.append
           (join ", " (map (fun '(k, x) =>
              String.append "'" (String.append k (String.append "': " (py_repr x)))) kvs))
           "}")
  end.

Definition py_str (v : yval) : string :=
  match v with
  | YStr s => s
  | _ => py_repr v
  end.

(** [f'{protocol}://{address}:{port}{pathname}'] *)
Definition compose_endpoint (protocol address port pathname : yval) : string :=
  String.append (py_str protocol)
    (String.append "://"
       (String.append (py_str address)
          (String.append ":" (String.append (py_str port) (py_str pathname))))).

(** [config['target'][field]], reading the global [config]. *)
Definition read_field (config : yval) (field : string) : result yval :=
  bind (py_getitem config "target") (fun t => py_getitem t field).

(** The arguments a started thread runs [http_request] with. *)
Record attempt := {
  a_endpoint : string;
  a_timeout : yval;
  a_verify : yval
}.

(** Lines 182-189. Each of the six reads of the global [config] sees the
    configuration current at that read: [config_at i] is the one seen by
    the i-th read. A SIGHUP handler runs between bytecode instructions, so
    a reload can take effect between any two reads. *)
Definition spawn_at (config_at : nat -> yval) : result attempt :=
  let! protocol := read_field (config_at 0) "protocol" in
  let! address := read_field (config_at 1) "address" in
  let! port := read_field (config_at 2) "port" in
  let! pathname := read_field (config_at 3) "pathname" in
  let target_endpoint := compose_endpoint protocol address port pathname in
  let! timeout := read_field (config_at 4) "timeout" in
  let! verify := read_field (config_at 5) "verify_ssl" in
  Ok {| a_endpoint := target_endpoint; a_timeout := timeout; a_verify := verify |}.

Definition spawn (config : yval) : result attempt := spawn_at (fun _ => config).

(** [1 / x] for the int literal 1. *)
Definition py_div_one (x : yval) : result pyfloat :=
  match x with
  | YBool b => if b then Ok (Fin 1) else Exc ZeroDivisionError
  | YInt z => if Z.eqb z 0 then Exc ZeroDivisionError else Ok (Fin (/ inject_Z z))
  | YFloat (Fin q) => if Qeq_bool q 0 then Exc ZeroDivisionError else Ok (Fin (/ q))
  | YFloat (PInf | NInf) => Ok (Fin 0)
  | YFloat NaN => Ok NaN
  | _ => Exc TypeError
  end.

(** [time.sleep(d)] converts [d] seconds to integer nanoseconds, rounded
    away from zero, which must fit a signed 64-bit integer: otherwise it
    raises [OverflowError] (a NaN raises [ValueError]); a negative duration
    then raises [ValueError]. The product by 10^9 is exact here, where
    CPython first rounds it to a double. *)
Definition sleep_ns (q : Q) : Z :=
  let x := (q * inject_Z (10 ^ 9))%Q in
  if Qlt_le_dec q 0 then Qfloor x else Qceiling x.

Definition py_sleep (d : pyfloat) : result unit :=
  match d with
  | Fin q =>
      if ((sleep_ns q <? - 2 ^ 63) || (2 ^ 63 <=? sleep_ns q))%Z then Exc OverflowError
      else if Qlt_le_dec q 0 then Exc ValueError else Ok tt
  | NaN => Exc ValueError
  | PInf | NInf => Exc OverflowError
  end.

(** Line 192: the duration slept before the next iteration. *)
Definition sleep_duration (config : yval) : result pyfloat :=
  let! f := read_field config "frequency" in
  let! d := py_div_one f in
  let! _ := py_sleep d in
  Ok d.

(** ** The scheduler (lines 179-192, with reloads and worker threads)

    The state: the global [config], the threads started and not yet
    finished, and the registry. A tick runs one iteration of the loop
    (the reads of one iteration all see one configuration here; reloads
    between the reads are the subject of [spawn_at]); a thread may finish
    at any time; a SIGHUP may reload the configuration. *)
Record sched := {
  s_config : yval;
  s_inflight : list attempt;
  s_registry : registry
}.

Inductive sched_label :=
| LTick (d : pyfloat)           (* one iteration, sleeping d seconds *)
| LFinish (e : probe_env)       (* a thread's http_request returns *)
| LReload.                      (* SIGHUP handled *)

Inductive sched_step : sched -> sched_label -> sched -> Prop :=
| step_tick s a d :
    spawn (s_config s) = Ok a -> sleep_duration (s_config s) = Ok d ->
    sched_step s (LTick d)
      {| s_config := s_config s; s_inflight := s_inflight s ++ [a];
         s_registry := s_registry s |}
| step_finish s i a e :
    s_inflight s !! i = Some a ->
    sched_step s (LFinish e)
      {| s_config := s_config s; s_inflight := delete i (s_inflight s);
         s_registry := fst (http_request (a_endpoint a) e (s_registry s)) |}
| step_reload s file config' :
    reload (Running (s_config s)) file = Running config' ->
    sched_step s LReload
      {| s_config := config'; s_inflight := s_inflight s;
         s_registry := s_registry s |}.

Definition sched_init (config : yval) : sched :=
  {| s_config := config; s_inflight := []; s_registry := registry_init |}.

Definition reachable (config : yval) (s : sched) : Prop :=
  rtc (fun x y => exists l, sched_step x l y) (sched_init config) s.

(** A verified configuration, as [verify_config] leaves it. *)
Definition example_config (address : string) (port : Z) : yval :=
  YDict [("target", YDict [("address", YStr address); ("port", YInt port);
                           ("pathname", YStr "/"); ("protocol", YStr "http");
                           ("frequency", YFloat (Fin 2)); ("timeout", YFloat (Fin 1));
                           ("verify_ssl", YBool true)]);
         ("server", YDict [("port", YInt 8000)])].


(** ** Sample documents, and configurations [verify_config] accepted *)

(** The value lines 140-151 give [t[key]]: [dflt] if [key not in t],
    else what the check makes of [t[key]]. *)
Definition field_or_default (tk : list (string * yval)) (key : string) (dflt : yval)
  (chk : yval -> result yval) : result yval :=
  match assoc_get key tk with
  | Some x => chk x
  | None => Ok dflt
  end.

(** A server block without [port]. *)
Definition server_host_entries : list (string * yval) :=
  [("server", YDict [("host", YStr "0.0.0.0")]);
   ("target", YDict [("address", YStr "example.com")])].

(** A target with an address and an int frequency. *)
Definition probe_document : yval :=
  YDict [("target", YDict [("address", YStr "example.com"); ("frequency", YInt 2)])].

(** A configuration some document verifies to. *)
Definition verified (c : yval) : Prop :=
  exists doc, verify_config doc = Ok (c, true).

(** [frequency: 'nan'], which [float()] reads as NaN. *)
Definition nan_frequency_document : yval :=
  YDict [("target", YDict [("address", YStr "example.com"); ("frequency", YStr "nan")])].


(** The configuration a start-up ends with, if it runs. *)
Definition startup_config (file : config_file) : yval :=
  match startup file with Running c => c | _ => YDict [] end.

(** * Properties *)

(** ** The [except] clauses *)




Lemma handle_classify ep c hx r :
  handle ep c hx r =
  match classify c with
  | Some l =>
      match hx with
      | None => (counter_inc http_requests_errors ["GET"; ep; l] r, None)
      | Some c' => (r, Some c')
      end
  | None => (r, Some c)
  end.
Proof.
  unfold handle, classify. by destruct (first_handler handlers c) as [[h l]|].
Qed.


(** A world in which the GET raises [c] before any response. *)
Definition get_raises (c : pycls) : probe_env :=
  {| t_start := 0; get_result := Raise c; inc_exn := None; t_end := 0;
     observe_exn := None; handler_exn := None |}.





(** Claim C3 (amended). No clause is placed after one of its own
    subclasses: whenever the exception also matches a clause other than
    the one chosen, that clause is not a subclass of the chosen one. A
    class under two unrelated clauses gets the earlier one. *)
Theorem classify_most_specific (c : pycls) (h : known) (l : string) :
  first_handler handlers c = Some (h, l) ->
  forall h' l', In (h', l') handlers -> isinstance c h' = true -> h' <> h ->
  issubclass_known h' h = false.
Proof.
  intros Hf h' l' Hin Hi Hne. simpl in Hf.
  repeat match type of Hf with
  | context [isinstance c ?k] =>
      let E := fresh "E" in
      destruct (isinstance c k) eqn:E; [injection Hf as <- <- |]
  end; try discriminate;
  simpl in Hin; intuition (simplify_eq; first [reflexivity | congruence]).
Qed.

Lemma classify_most_specific_witness :
  first_handler handlers (Known ConnectTimeout) = Some (ConnectionError, "connection") /\
  issubclass_known Timeout ConnectionError = false.
Proof.
  split; [reflexivity|].
  apply (classify_most_specific (Known ConnectTimeout) ConnectionError "connection"
           eq_refl Timeout "timeout"); [simpl; tauto | reflexivity | discriminate].
Defined.

(** Claim C3 (counterexample). [requests.ConnectTimeout] is a [Timeout]
    (and a [ConnectionError]); it is labeled "connection", not "timeout". *)
Lemma connect_timeout_labeled_connection :
  isinstance (Known ConnectTimeout) Timeout = true /\
  classify (Known ConnectTimeout) = Some "connection".
Proof. split; reflexivity. Qed.

(** ** The registry under [http_request] *)


Lemma counter_value_inc_other name lbls name' lbls' (r : registry) :
  (name', lbls') <> (name, lbls) ->
  counter_value name' lbls' (counter_inc name lbls r) = counter_value name' lbls' r.
Proof.
  intros Hne. unfold counter_value, counter_inc.
  destruct (r !! name) as [[m|m]|] eqn:Hm; try done.
  destruct (decide (name' = name)) as [->|Hn].
  - rewrite lookup_insert_eq, Hm. simpl.
    rewrite lookup_insert_ne; [done|]. congruence.
  - by rewrite lookup_insert_ne.
Qed.

Lemma counter_value_observe name lbls n l v (r : registry) :
  counter_value name lbls (histogram_observe n l v r) = counter_value name lbls r.
Proof.
  unfold counter_value, histogram_observe.
  destruct (r !! n) as [[m|m]|] eqn:Hm; try done.
  destruct (decide (name = n)) as [->|Hn].
  - by rewrite lookup_insert_eq, Hm.
  - by rewrite lookup_insert_ne.
Qed.

Lemma counter_inc_other_name name lbls (r : registry) n :
  n <> name -> counter_inc name lbls r !! n = r !! n.
Proof.
  intros Hn. unfold counter_inc.
  destruct (r !! name) as [[m|m]|]; try done. by rewrite lookup_insert_ne.
Qed.

Lemma histogram_observe_other_name name lbls v (r : registry) n :
  n <> name -> histogram_observe name lbls v r !! n = r !! n.
Proof.
  intros Hn. unfold histogram_observe.
  destruct (r !! name) as [[m|m]|]; try done. by rewrite lookup_insert_ne.
Qed.

Ltac insert_case n name :=
  destruct (decide (n = name)) as [Heq|Hn];
  [rewrite Heq, lookup_insert_eq | rewrite lookup_insert_ne by congruence];
  first [solve [eauto] | exfalso; rewrite Heq in *; congruence].

Lemma counter_inc_wf name lbls (r : registry) :
  registry_wf r -> registry_wf (counter_inc name lbls r).
Proof.
  intros (H1 & H2 & H3). unfold counter_inc.
  destruct (r !! name) as [[m|m]|] eqn:Hm; try (by split; [|split]).
  destruct H1 as [m1 H1], H2 as [m2 H2], H3 as [m3 H3].
  split; [|split].
  - insert_case http_requests_completed name.
  - insert_case http_requests_errors name.
  - insert_case latency_histogram name.
Qed.

Lemma names_distinct :
  http_requests_completed <> http_requests_errors /\
  http_requests_completed <> latency_histogram /\
  http_requests_errors <> latency_histogram.
Proof. split; [|split]; discriminate. Qed.

Lemma histogram_observe_wf lbls v (r : registry) :
  registry_wf r -> registry_wf (histogram_observe latency_histogram lbls v r).
Proof.
  intros (H1 & H2 & H3). pose proof names_distinct as (D1 & D2 & D3).
  unfold histogram_observe. destruct H3 as [m3 H3]. rewrite H3.
  split; [|split].
  - rewrite lookup_insert_ne by congruence. done.
  - rewrite lookup_insert_ne by congruence. done.
  - rewrite lookup_insert_eq. eauto.
Qed.

Lemma histogram_observe_value (r : registry) lbls v m :
  r !! latency_histogram = Some (FHistogram m) ->
  observations latency_histogram lbls (histogram_observe latency_histogram lbls v r)
  = app (observations latency_histogram lbls r) [v].
Proof.
  intros Hm. unfold observations, histogram_observe. rewrite Hm. cbv iota beta.
  rewrite lookup_insert_eq. cbv iota beta. by rewrite lookup_insert_eq.
Qed.

Lemma observations_inc name lbls n l (r : registry) :
  name <> n -> observations n l (counter_inc name lbls r) = observations n l r.
Proof. intros Hn. unfold observations. by rewrite counter_inc_other_name. Qed.







Definition env_ok : probe_env :=
  {| t_start := 0; get_result := Ok 200%Z; inc_exn := None; t_end := 1 # 20;
     observe_exn := None; handler_exn := None |}.

Lemma registry_init_wf : registry_wf registry_init.
Proof. split; [|split]; eexists; reflexivity. Qed.



(** ** Latency recording and series registration *)

(** The name the specification gives a last-value latency gauge; main.py
    declares no metric of that name. *)
Definition latest_latency_seconds : string :=
  String.append APP_METRIC_PREFIX "_latest_latency_seconds".

Lemma handle_other_name ep c hx (r : registry) n :
  n <> http_requests_errors -> fst (handle ep c hx r) !! n = r !! n.
Proof.
  intros Hn. rewrite handle_classify. destruct (classify c); [destruct hx|]; simpl; [done| |done].
  by apply counter_inc_other_name.
Qed.

Lemma http_request_other_name ep (e : probe_env) (r : registry) n :
  n <> http_requests_completed -> n <> http_requests_errors -> n <> latency_histogram ->
  fst (http_request ep e r) !! n = r !! n.
Proof.
  intros H1 H2 H3. unfold http_request.
  destruct (get_result e) as [code|c]; [|by apply handle_other_name].
  destruct (inc_exn e) as [c|]; [by apply handle_other_name|].
  destruct (observe_exn e) as [c|]; simpl.
  - rewrite handle_other_name by done. by apply counter_inc_other_name.
  - rewrite histogram_observe_other_name by done. by apply counter_inc_other_name.
Qed.

(** Claim C4 (amended). For a completed request whose bookkeeping raises
    nothing, the measured seconds are appended to the histogram
    [http_probe_latency_seconds{method, target}]. No metric named
    [http_probe_latest_latency_seconds] is registered, and [http_request]
    never writes one. *)
Theorem http_request_records_latency :
  registry_init !! latest_latency_seconds = None /\
  (forall ep (e : probe_env) (r : registry),
     fst (http_request ep e r) !! latest_latency_seconds = r !! latest_latency_seconds) /\
  (forall ep (e : probe_env) (r : registry) code,
     registry_wf r -> get_result e = Ok code -> inc_exn e = None -> observe_exn e = None ->
     observations latency_histogram ["GET"; ep] (fst (http_request ep e r))
     = app (observations latency_histogram ["GET"; ep] r) [(t_end e - t_start e)%Q]).
Proof.
  split; [reflexivity|]. split.
  - intros ep e r. apply http_request_other_name; discriminate.
  - intros ep e r code (_ & _ & [m Hm]) Hget Hinc Hobs.
    unfold http_request. rewrite Hget, Hinc, Hobs. simpl.
    erewrite histogram_observe_value.
    + rewrite observations_inc; [done | discriminate].
    + rewrite counter_inc_other_name; [exact Hm | discriminate].
Qed.

Lemma http_request_records_latency_witness :
  observations latency_histogram ["GET"; "http://example.com:80/"]
    (fst (http_request "http://example.com:80/" env_ok registry_init))
  = [((1 # 20) - 0)%Q].
Proof.
  destruct http_request_records_latency as (_ & _ & P).
  rewrite (P "http://example.com:80/" env_ok registry_init 200%Z registry_init_wf
             eq_refl eq_refl eq_refl).
  reflexivity.
Defined.

(** Claim C4 (counterexample). After a 200 response there is no latest
    latency gauge in the registry to have been set. *)
Lemma no_latest_latency_gauge :
  fst (http_request "http://example.com:80/" env_ok registry_init)
    !! latest_latency_seconds = None.
Proof. vm_compute. reflexivity. Qed.








(** ** Composition of the endpoint *)

Lemma spawn_at_fields (config_at : nat -> yval) (a : attempt) :
  spawn_at config_at = Ok a ->
  exists p ad po pa,
    read_field (config_at 0) "protocol" = Ok p /\
    read_field (config_at 1) "address" = Ok ad /\
    read_field (config_at 2) "port" = Ok po /\
    read_field (config_at 3) "pathname" = Ok pa /\
    a_endpoint a = compose_endpoint p ad po pa.
Proof.
  unfold spawn_at.
  destruct (read_field (config_at 0) "protocol") as [p|]; [|discriminate]; cbn [bind].
  destruct (read_field (config_at 1) "address") as [ad|]; [|discriminate]; cbn [bind].
  destruct (read_field (config_at 2) "port") as [po|]; [|discriminate]; cbn [bind].
  destruct (read_field (config_at 3) "pathname") as [pa|]; [|discriminate]; cbn [bind].
  destruct (read_field (config_at 4) "timeout"); [|discriminate]; cbn [bind].
  destruct (read_field (config_at 5) "verify_ssl"); [|discriminate]; cbn [bind].
  intros [= <-]. by exists p, ad, po, pa.
Qed.

(** Claim C5 (amended). Each of the four fields is taken from the
    configuration current when that field is read, and the endpoint is
    [protocol://address:port pathname] of those values; when no reload
    takes effect between the first and the fourth read, all four come from
    that one configuration. *)
Theorem endpoint_fields_per_read :
  forall (config_at : nat -> yval) (a : attempt),
    spawn_at config_at = Ok a ->
    (exists p ad po pa,
       read_field (config_at 0) "protocol" = Ok p /\
       read_field (config_at 1) "address" = Ok ad /\
       read_field (config_at 2) "port" = Ok po /\
       read_field (config_at 3) "pathname" = Ok pa /\
       a_endpoint a = compose_endpoint p ad po pa) /\
    (forall c, config_at 0 = c -> config_at 1 = c -> config_at 2 = c -> config_at 3 = c ->
       exists p ad po pa,
         read_field c "protocol" = Ok p /\ read_field c "address" = Ok ad /\
         read_field c "port" = Ok po /\ read_field c "pathname" = Ok pa /\
         a_endpoint a = compose_endpoint p ad po pa).
Proof.
  intros config_at a H. apply spawn_at_fields in H as Hf. split; [exact Hf|].
  intros c H0 H1 H2 H3. rewrite H0, H1, H2, H3 in Hf. exact Hf.
Qed.

Lemma endpoint_fields_per_read_witness :
  a_endpoint {| a_endpoint := "http://old.example:80/"; a_timeout := YFloat (Fin 1);
                a_verify := YBool true |}
  = compose_endpoint (YStr "http") (YStr "old.example") (YInt 80) (YStr "/").
Proof.
  destruct (endpoint_fields_per_read (fun _ => example_config "old.example" 80)
              {| a_endpoint := "http://old.example:80/"; a_timeout := YFloat (Fin 1);
                 a_verify := YBool true |} eq_refl)
    as [_ H].
  destruct (H (example_config "old.example" 80) eq_refl eq_refl eq_refl eq_refl)
    as (p & ad & po & pa & Hp & Had & Hpo & Hpa & He).
  vm_compute in Hp, Had, Hpo, Hpa. injection Hp as <-. injection Had as <-.
  injection Hpo as <-. injection Hpa as <-. exact He.
Defined.

(** Claim C5 (counterexample). A reload taking effect after the address is
    read and before the port is read yields the old address with the new
    port, an endpoint neither configuration describes. *)
Lemma reload_mid_composition_mixes :
  match spawn_at (fun i => if Nat.ltb i 2 then example_config "old.example" 80
                           else example_config "new.example" 8080),
        spawn (example_config "old.example" 80),
        spawn (example_config "new.example" 8080) with
  | Ok a, Ok a_old, Ok a_new =>
      a_endpoint a = "http://old.example:8080/" /\
      a_endpoint a <> a_endpoint a_old /\ a_endpoint a <> a_endpoint a_new
  | _, _, _ => False
  end.
Proof. vm_compute. split; [reflexivity | split; discriminate]. Qed.

(** ** The scheduler *)

(** Claim C7. Every tick sleeps [1 / frequency] with the frequency read
    from the current configuration; a finishing request, which is where
    its latency is measured, leaves the configuration unchanged, so the
    sleeps of later ticks do not depend on latencies. *)
Theorem tick_interval_is_inverse_frequency :
  forall s l s', sched_step s l s' ->
    (forall d, l = LTick d ->
       exists f, read_field (s_config s) "frequency" = Ok f /\ py_div_one f = Ok d) /\
    (forall e, l = LFinish e -> s_config s' = s_config s).
Proof.
  intros s l s' Hs. destruct Hs as [s a d Ha Hd|s i a e Hi|s file c' Hr]; split;
    intros ? Hl; try discriminate; simpl.
  - injection Hl as <-. unfold sleep_duration in Hd.
    destruct (read_field (s_config s) "frequency") as [f|]; [|discriminate].
    cbn [bind] in Hd. exists f. split; [done|].
    destruct (py_div_one f) as [d'|]; [|discriminate]. cbn [bind] in Hd.
    destruct (py_sleep d'); [|discriminate]. exact Hd.
  - done.
Qed.

Lemma tick_interval_is_inverse_frequency_witness :
  exists f, read_field (example_config "old.example" 80) "frequency" = Ok f /\
            py_div_one f = Ok (Fin (/ 2)).
Proof.
  refine (proj1 (tick_interval_is_inverse_frequency
                   (sched_init (example_config "old.example" 80)) (LTick (Fin (/ 2)))
                   _ (step_tick (sched_init (example_config "old.example" 80))
                        {| a_endpoint := "http://old.example:80/";
                           a_timeout := YFloat (Fin 1); a_verify := YBool true |}
                        (Fin (/ 2)) eq_refl eq_refl)) _ eq_refl).
Defined.

Lemma repeat_snoc {A} (x : A) n : repeat x (S n) = app (repeat x n) [x].
Proof. induction n as [|n IH]; simpl in *; [done|]. by rewrite IH. Qed.

(** With no thread finishing, [n] ticks leave [n] threads in flight. *)
Lemma ticks_reachable (config : yval) (a : attempt) (d : pyfloat) :
  spawn config = Ok a -> sleep_duration config = Ok d ->
  forall n, reachable config
    {| s_config := config; s_inflight := repeat a n; s_registry := registry_init |}.
Proof.
  intros Ha Hd n. induction n as [|n IH]; [apply rtc_refl|].
  eapply rtc_r; [exact IH|]. exists (LTick d). rewrite repeat_snoc.
  by apply (step_tick {| s_config := config; s_inflight := repeat a n;
                         s_registry := registry_init |}).
Qed.

(** Claim C9 (amended). The loop starts a thread on every tick and never
    waits for one, so the number of attempts in flight is not bounded:
    for every [n] a state with [n] attempts in flight is reachable. *)
Theorem inflight_grows_with_ticks :
  forall (config : yval) (a : attempt) (d : pyfloat),
    spawn config = Ok a -> sleep_duration config = Ok d ->
    forall n, exists s, reachable config s /\ length (s_inflight s) = n.
Proof.
  intros config a d Ha Hd n.
  eexists. split; [by eapply ticks_reachable|]. simpl. apply repeat_length.
Qed.

Lemma inflight_grows_with_ticks_witness :
  exists s, reachable (example_config "old.example" 80) s /\ length (s_inflight s) = 1000.
Proof.
  refine (inflight_grows_with_ticks (example_config "old.example" 80)
            {| a_endpoint := "http://old.example:80/"; a_timeout := YFloat (Fin 1);
               a_verify := YBool true |} (Fin (/ 2)) eq_refl eq_refl 1000).
Defined.

(** Claim C9 (counterexample). No bound holds in every reachable state. *)
Lemma inflight_unbounded :
  ~ exists N, forall s, reachable (example_config "old.example" 80) s ->
                        length (s_inflight s) <= N.
Proof.
  intros [N HN].
  pose proof (ticks_reachable (example_config "old.example" 80)
                {| a_endpoint := "http://old.example:80/"; a_timeout := YFloat (Fin 1);
                   a_verify := YBool true |} (Fin (/ 2)) eq_refl eq_refl (S N)) as H.
  apply HN in H. simpl in H. rewrite repeat_length in H. lia.
Qed.

(** ** [verify_config] *)

Lemma assoc_get_set_eq k v (kvs : list (string * yval)) :
  assoc_get k (assoc_set k v kvs) = Some v.
Proof.
  induction kvs as [|[k' v'] kvs IH]; simpl.
  - by rewrite String.eqb_refl.
  - destruct (String.eqb k k') eqn:E; simpl; rewrite ?String.eqb_refl, ?E; done.
Qed.

Lemma assoc_get_set_ne k k' v (kvs : list (string * yval)) :
  k' <> k -> assoc_get k' (assoc_set k v kvs) = assoc_get k' kvs.
Proof.
  intros Hne. induction kvs as [|[k0 v0] kvs IH]; simpl.
  - destruct (String.eqb_spec k' k); congruence.
  - destruct (String.eqb_spec k k0) as [<-|Hk]; simpl.
    + destruct (String.eqb_spec k' k); congruence.
    + by rewrite IH.
Qed.

Lemma py_getitem_dict v key x :
  py_getitem v key = Ok x -> exists kvs, v = YDict kvs /\ assoc_get key kvs = Some x.
Proof.
  destruct v; simpl; try discriminate.
  destruct (assoc_get key kvs) eqn:E; [|discriminate]. intros [= <-]. eauto.
Qed.

Lemma set_field_inv t key dflt chk t' :
  set_field t key dflt chk = Ok t' ->
  exists kvs v, t = YDict kvs /\ t' = YDict (assoc_set key v kvs) /\
                (v = dflt \/ exists x, assoc_get key kvs = Some x /\ chk x = Ok v).
Proof.
  unfold set_field.
  destruct (py_contains key t) as [present|]; cbn [bind]; [|discriminate].
  destruct present.
  - destruct (py_getitem t key) as [x|] eqn:Ex; cbn [bind]; [|discriminate].
    destruct (chk x) as [v|] eqn:Ev; cbn [bind]; [|discriminate].
    destruct t; simpl; try discriminate. intros [= <-].
    apply py_getitem_dict in Ex as (kvs' & [= <-] & Hk).
    eexists _, v. split; [done|]. split; [done|]. right. eauto.
  - cbn [bind]. destruct t; simpl; try discriminate. intros [= <-].
    eexists _, _. split; [done|]. split; [done|]. by left.
Qed.

Lemma check_port_ok x v :
  check_port x = Ok v -> exists p, v = YInt p /\ (1 <= p <= 65535)%Z.
Proof.
  unfold check_port. destruct (py_int x) as [p|c].
  - destruct (Z.ltb_spec p 1); [discriminate|].
    destruct (Z.ltb_spec 65535 p); [discriminate|].
    intros [= <-]. exists p. split; [done|]. lia.
  - destruct (isinstance c ValueError); discriminate.
Qed.

(** The rate fields hold the default int 1, or a float for which
    [x <= 0] is false. *)
Definition rate_ok (v : yval) : Prop :=
  v = YInt 1 \/ exists f, v = YFloat f /\ float_le_zero f = false.

Lemma check_rate_ok (chk : yval -> result yval) x v :
  chk = check_frequency \/ chk = check_timeout -> chk x = Ok v ->
  exists f, v = YFloat f /\ float_le_zero f = false.
Proof.
  intros [->| ->]; unfold check_frequency, check_timeout;
    destruct (py_float x) as [f|c];
    try (destruct (isinstance c ValueError); discriminate);
    destruct (float_le_zero f) eqn:E; try discriminate;
    intros [= <-]; eauto.
Qed.

(** The target dict [verify_config] writes back, field by field. *)
Definition verified_target (tk : list (string * yval))
  (port pathname protocol frequency timeout verify_ssl : yval) : yval :=
  YDict (assoc_set "verify_ssl" verify_ssl
          (assoc_set "timeout" timeout
            (assoc_set "frequency" frequency
              (assoc_set "protocol" protocol
                (assoc_set "pathname" pathname
                  (assoc_set "port" port tk)))))).

Ltac bind_step H :=
  match type of H with
  | bind ?r _ = _ =>
      let E := fresh "E" in
      destruct r eqn:E; cbn [bind] in H; [|discriminate H]
  end.

Lemma verify_config_true (c c' : yval) :
  verify_config c = Ok (c', true) ->
  exists kvs1 tk port pathname protocol frequency timeout verify_ssl,
    c' = YDict (assoc_set "target"
                  (verified_target tk port pathname protocol frequency timeout verify_ssl)
                  kvs1) /\
    is_Some (assoc_get "address" tk) /\
    (exists p, port = YInt p /\ (1 <= p <= 65535)%Z) /\
    rate_ok frequency /\ rate_ok timeout.
Proof.
  unfold verify_config. destruct c as [| | | | | |kvs]; try (intros [=]; fail).
  intros H. bind_step H. rename E into Es.
  destruct (py_contains "target" a) as [[|]|] eqn:Et; cbn [bind negb] in H;
    [| injection H; discriminate | discriminate].
  bind_step H. rename a0 into target, E into Eg.
  destruct (py_contains "address" target) as [[|]|] eqn:Ea; cbn [bind negb] in H;
    [| injection H; discriminate | discriminate].
  do 6 bind_step H. injection H as <-.
  apply py_getitem_dict in Eg as (kvs1 & -> & _).
  apply set_field_inv in E as (tk & vport & -> & -> & Hport).
  apply set_field_inv in E0 as (k2 & vpath & [= <-] & -> & _).
  apply set_field_inv in E1 as (k3 & vproto & [= <-] & -> & _).
  apply set_field_inv in E2 as (k4 & vfreq & [= <-] & -> & Hfreq).
  apply set_field_inv in E3 as (k5 & vtimeout & [= <-] & -> & Htimeout).
  apply set_field_inv in E4 as (k6 & vverify & [= <-] & -> & _).
  exists kvs1, tk, vport, vpath, vproto, vfreq, vtimeout, vverify.
  split; [reflexivity|]. split; [|split; [|split]].
  - simpl in Ea. injection Ea as Ea. by apply bool_decide_eq_true in Ea.
  - destruct Hport as [->|(x & _ & Hx)]; [by exists 80%Z|].
    by apply check_port_ok in Hx.
  - destruct Hfreq as [->|(x & _ & Hx)]; [by left|]. right.
    eapply check_rate_ok; [left; reflexivity | exact Hx].
  - destruct Htimeout as [->|(x & _ & Hx)]; [by left|]. right.
    eapply check_rate_ok; [right; reflexivity | exact Hx].
Qed.

Lemma read_verified kvs1 tk port pathname protocol frequency timeout verify_ssl fld :
  read_field (YDict (assoc_set "target"
                       (verified_target tk port pathname protocol frequency timeout verify_ssl)
                       kvs1)) fld
  = py_getitem (verified_target tk port pathname protocol frequency timeout verify_ssl) fld.
Proof. unfold read_field. simpl. by rewrite assoc_get_set_eq. Qed.

Lemma assoc_get_set k k' v (kvs : list (string * yval)) :
  assoc_get k (assoc_set k' v kvs) =
  if String.eqb k k' then Some v else assoc_get k kvs.
Proof.
  destruct (String.eqb_spec k k') as [->|Hne].
  - apply assoc_get_set_eq.
  - by apply assoc_get_set_ne.
Qed.

Ltac lookup_field :=
  unfold verified_target, py_getitem; rewrite ?assoc_get_set; simpl.

Lemma div_one_rate f :
  rate_ok f ->
  exists d, py_div_one f = Ok d /\ (f = YInt 1 -> d = Fin 1) /\
            (forall q, f = YFloat (Fin q) -> exists q', d = Fin q' /\ (0 < q')%Q).
Proof.
  intros [->|(x & -> & Hx)].
  - exists (Fin 1). split; [reflexivity|]. split; [done|]. discriminate.
  - destruct x as [q| | |]; simpl in Hx; try discriminate.
    + assert (Hq : (0 < q)%Q).
      { apply Qnot_le_lt. intros Hle. apply Qle_bool_iff in Hle. congruence. }
      assert (Hq0 : Qeq_bool q 0 = false).
      { destruct (Qeq_bool q 0) eqn:E; [|done].
        apply Qeq_bool_iff in E. rewrite E in Hq. discriminate. }
      exists (Fin (/ q)). simpl. rewrite Hq0. split; [done|]. split; [discriminate|].
      intros q0 [= <-]. exists (/ q)%Q. split; [done|]. by apply Qinv_lt_0_compat.
    + exists (Fin 0). split; [done|]. split; [discriminate|]. discriminate.
    + exists NaN. split; [done|]. split; [discriminate|]. discriminate.
Qed.

(** A document setting [frequency: .inf] (PyYAML reads it as a float). *)
Definition inf_frequency_document : yval :=
  YDict [("target", YDict [("address", YStr "example.com"); ("frequency", YFloat PInf)])].

Definition minimal_document : yval :=
  YDict [("target", YDict [("address", YStr "example.com")])].

(** Claim C10 (code bug, evaluated). When [verify_config] returns True,
    the target dict holds all seven keys, so every read of the loop
    succeeds; the port is an int in [1, 65535]; frequency and timeout are
    the default int 1 or a float for which [x <= 0] is false, so
    [1 / frequency] never divides by zero, and it is positive for the
    default or a finite float. But [check_frequency] and [check_timeout],
    documented to reject any value that is not positive, accept NaN,
    since [nan <= 0] is false: a document with [frequency: 'nan'] is
    verified, [1 / nan] is nan, and [time.sleep(nan)] raises [ValueError]
    in the loop. An infinite frequency is accepted too, and gives a sleep
    of 0.0 seconds. *)
Theorem verify_config_guarantees :
  (forall c c' : yval, verify_config c = Ok (c', true) ->
    (exists a, spawn c' = Ok a) /\
    (exists p, read_field c' "port" = Ok (YInt p) /\ (1 <= p <= 65535)%Z) /\
    (exists t, read_field c' "timeout" = Ok t /\ rate_ok t) /\
    (exists f d, read_field c' "frequency" = Ok f /\ rate_ok f /\ py_div_one f = Ok d /\
       (f = YInt 1 -> d = Fin 1) /\
       (forall q, f = YFloat (Fin q) -> exists q', d = Fin q' /\ (0 < q')%Q))) /\
  check_frequency (YFloat NaN) = Ok (YFloat NaN) /\
  check_timeout (YFloat NaN) = Ok (YFloat NaN) /\
  (exists c', verify_config nan_frequency_document = Ok (c', true) /\
     read_field c' "frequency" = Ok (YFloat NaN) /\ py_div_one (YFloat NaN) = Ok NaN /\
     sleep_duration c' = Exc ValueError) /\
  (exists c', verify_config inf_frequency_document = Ok (c', true) /\
     read_field c' "frequency" = Ok (YFloat PInf) /\ sleep_duration c' = Ok (Fin 0)).
Proof.
  split; [|split; [reflexivity|split; [reflexivity|split]]].
  - intros c c' H.
    destruct (verify_config_true c c' H) as
      (kvs1 & tk & port & pathname & protocol & frequency & timeout & verify_ssl &
       -> & [ad Had] & (p & -> & Hp) & Hf & Ht).
    split; [|split; [|split]].
    + unfold spawn, spawn_at. rewrite !read_verified.
      lookup_field. rewrite Had. cbn [bind]. eexists. reflexivity.
    + exists p. rewrite read_verified. lookup_field. done.
    + exists timeout. rewrite read_verified. lookup_field. done.
    + destruct (div_one_rate frequency Hf) as (d & Hd & H1 & H2).
      exists frequency, d. rewrite read_verified. lookup_field. done.
  - eexists. split; [reflexivity|]. vm_compute. split; [reflexivity|]. split; reflexivity.
  - eexists. split; [reflexivity|]. vm_compute. split; reflexivity.
Qed.

Lemma verify_config_guarantees_witness :
  exists c', verify_config minimal_document = Ok (c', true) /\ exists a, spawn c' = Ok a.
Proof.
  eexists. split; [reflexivity|].
  exact (proj1 (proj1 verify_config_guarantees minimal_document _ eq_refl)).
Defined.

(** ** Loading and reloading the configuration *)

(** A document whose [target.port] is out of range. *)
Definition bad_port_document : yval :=
  YDict [("target", YDict [("address", YStr "example.com"); ("port", YInt 70000)])].

(** Claim C6 (code bug, evaluated). Start-up never exits with status 0,
    and a reload rejected by [verify_config] returning [False] keeps the
    previous configuration; but a reload whose port is out of range makes
    [check_port] raise [ArgumentTypeError], which [except IOError] does not
    catch, so it escapes the SIGHUP handler and ends the process. *)
Theorem reload_bad_port_terminates :
  (forall file, match startup file with Exited st => st <> 0%Z | Running _ => True end) /\
  (forall config file, snd (load_configuration config file) = Ok false ->
     fst (load_configuration config file) = config) /\
  reload (Running (example_config "old.example" 80)) (Loaded (Ok bad_port_document))
  = Exited 1.
Proof.
  split; [|split].
  - intros file. unfold startup.
    destruct (load_configuration (YDict []) file) as [c [[|]|c']]; simpl; lia || done.
  - intros config file. unfold load_configuration.
    destruct file as [c|[doc|c]]; try done.
    destruct (verify_config doc) as [[doc' [|]]|c] eqn:Ev; try done.
    destruct (verify_config_true _ _ Ev) as (kvs1 & tk & ? & ? & ? & ? & ? & ? & -> & _).
    unfold py_getitem at 1. rewrite assoc_get_set_eq. cbn [bind].
    lookup_field. discriminate.
  - vm_compute. reflexivity.
Qed.

Lemma reload_bad_port_terminates_witness :
  fst (load_configuration (example_config "old.example" 80)
         (Loaded (Ok (YDict [("target", YDict [])]))))
  = example_config "old.example" 80.
Proof.
  apply (proj1 (proj2 reload_bad_port_terminates)). reflexivity.
Defined.

(** * Further properties of main.py *)

(** ** [verify_config] field by field *)

Lemma set_field_spec t key dflt chk t' :
  set_field t key dflt chk = Ok t' ->
  exists kvs v, t = YDict kvs /\ t' = YDict (assoc_set key v kvs) /\
    match assoc_get key kvs with Some x => chk x = Ok v | None => v = dflt end.
Proof.
  intros H. pose proof (set_field_inv _ _ _ _ _ H) as (kvs & _ & -> & _). revert H.
  unfold set_field. simpl.
  destruct (assoc_get key kvs) as [x|] eqn:E; simpl.
  - destruct (chk x) as [v|] eqn:Ev; simpl; [|intros [=]]. intros [= <-].
    exists kvs, v. by rewrite E.
  - intros [= <-]. exists kvs, dflt. by rewrite E.
Qed.

Lemma verify_server_keeps (kvs : list (string * yval)) c1 k :
  k <> "server" -> verify_server (YDict kvs) = Ok c1 ->
  exists kvs1, c1 = YDict kvs1 /\ assoc_get k kvs1 = assoc_get k kvs.
Proof.
  intros Hk. unfold verify_server. simpl.
  destruct (assoc_get "server" kvs) as [srv|] eqn:Es; simpl.
  - destruct (py_contains "port" srv) as [[|]|]; simpl; [| |intros [=]].
    + destruct (py_getitem srv "port") as [p|]; simpl; [|intros [=]].
      destruct (check_port p) as [p'|]; simpl; [|intros [=]].
      destruct (py_setitem srv "port" p') as [srv'|]; simpl; [|intros [=]].
      intros [= <-]. eexists. split; [reflexivity|]. by apply assoc_get_set_ne.
    + intros [= <-]. eexists. split; [reflexivity|]. by apply assoc_get_set_ne.
  - intros [= <-]. eexists. split; [reflexivity|]. by apply assoc_get_set_ne.
Qed.

Lemma field_or_default_ok tk key dflt chk v :
  match assoc_get key tk with Some x => chk x = Ok v | None => v = dflt end ->
  Ok v = field_or_default tk key dflt chk.
Proof. unfold field_or_default. destruct (assoc_get key tk); congruence. Qed.

(** Field by field, the target [verify_config] accepts holds what lines
    140-151 assign: an absent key gets its default (port 80, pathname "/",
    protocol "http", frequency 1, timeout 1, verify_ssl True), a present
    port, frequency or timeout is replaced by its checked value, and
    address, pathname, protocol and verify_ssl are kept as given. *)
Theorem verify_config_fields (kvs tk : list (string * yval)) (c' : yval) :
  assoc_get "target" kvs = Some (YDict tk) ->
  verify_config (YDict kvs) = Ok (c', true) ->
  read_field c' "address" = py_getitem (YDict tk) "address" /\
  read_field c' "port" = field_or_default tk "port" (YInt 80) check_port /\
  read_field c' "pathname" = field_or_default tk "pathname" (YStr "/") Ok /\
  read_field c' "protocol" = field_or_default tk "protocol" (YStr "http") Ok /\
  read_field c' "frequency" = field_or_default tk "frequency" (YInt 1) check_frequency /\
  read_field c' "timeout" = field_or_default tk "timeout" (YInt 1) check_timeout /\
  read_field c' "verify_ssl" = field_or_default tk "verify_ssl" (YBool true) Ok.
Proof.
  intros Htk H. unfold verify_config in H. bind_step H. rename a into c1.
  destruct (verify_server_keeps kvs c1 "target" ltac:(discriminate) E)
    as (kvs1 & -> & Hk1). rewrite Htk in Hk1.
  simpl in H. rewrite Hk1 in H. simpl in H.
  destruct (bool_decide (is_Some (assoc_get "address" tk))); simpl in H; [|discriminate].
  do 6 bind_step H. injection H as <-.
  apply set_field_spec in E0 as (k1 & vport & [= <-] & -> & Hport).
  apply set_field_spec in E1 as (k2 & vpath & [= <-] & -> & Hpath).
  apply set_field_spec in E2 as (k3 & vproto & [= <-] & -> & Hproto).
  apply set_field_spec in E3 as (k4 & vfreq & [= <-] & -> & Hfreq).
  apply set_field_spec in E4 as (k5 & vtimeout & [= <-] & -> & Htimeout).
  apply set_field_spec in E5 as (k6 & vverify & [= <-] & -> & Hverify).
  repeat (rewrite assoc_get_set in Hpath; simpl in Hpath).
  repeat (rewrite assoc_get_set in Hproto; simpl in Hproto).
  repeat (rewrite assoc_get_set in Hfreq; simpl in Hfreq).
  repeat (rewrite assoc_get_set in Htimeout; simpl in Htimeout).
  repeat (rewrite assoc_get_set in Hverify; simpl in Hverify).
  unfold read_field. simpl. rewrite assoc_get_set_eq. simpl.
  repeat (rewrite assoc_get_set; simpl).
  split; [done|].
  split; [by apply field_or_default_ok|]. split; [by apply field_or_default_ok|].
  split; [by apply field_or_default_ok|]. split; [by apply field_or_default_ok|].
  split; by apply field_or_default_ok.
Qed.
Lemma observations_counter_inc n l name lbls (r : registry) :
  observations n l (counter_inc name lbls r) = observations n l r.
Proof.
  unfold observations, counter_inc.
  destruct (r !! name) as [[m|m]|] eqn:Hm; try done.
  destruct (decide (n = name)) as [->|Hn].
  - by rewrite lookup_insert_eq, Hm.
  - by rewrite lookup_insert_ne by congruence.
Qed.

Lemma counter_inc_mono n l name lbls (r : registry) :
  counter_value n l r <= counter_value n l (counter_inc name lbls r).
Proof.
  destruct (decide ((n, l) = (name, lbls))) as [[= -> ->]|Hne].
  - unfold counter_value, counter_inc.
    destruct (r !! name) as [[m|m]|] eqn:Hm; rewrite ?Hm; try lia.
    rewrite lookup_insert_eq. simpl. rewrite lookup_insert_eq. simpl. lia.
  - by rewrite counter_value_inc_other.
Qed.

Lemma observations_observe_other n l name lbls v (r : registry) :
  (n, l) <> (name, lbls) ->
  observations n l (histogram_observe name lbls v r) = observations n l r.
Proof.
  intros Hne. unfold observations, histogram_observe.
  destruct (r !! name) as [[m|m]|] eqn:Hm; try done.
  destruct (decide (n = name)) as [->|Hn].
  - rewrite lookup_insert_eq, Hm. simpl.
    rewrite lookup_insert_ne by congruence. done.
  - by rewrite lookup_insert_ne by congruence.
Qed.

Lemma observations_observe_prefix n l name lbls v (r : registry) :
  observations n l r `prefix_of` observations n l (histogram_observe name lbls v r).
Proof.
  destruct (decide ((n, l) = (name, lbls))) as [[= -> ->]|Hne].
  - unfold observations, histogram_observe.
    destruct (r !! name) as [[m|m]|] eqn:Hm; rewrite ?Hm; try done.
    rewrite lookup_insert_eq. simpl. rewrite lookup_insert_eq. simpl.
    by apply prefix_app_r.
  - by rewrite observations_observe_other.
Qed.

Lemma handle_series ep c hx (r : registry) n l :
  counter_value n l r <= counter_value n l (fst (handle ep c hx r)) /\
  observations n l (fst (handle ep c hx r)) = observations n l r /\
  ((forall rest, l <> "GET" :: ep :: rest) ->
   counter_value n l (fst (handle ep c hx r)) = counter_value n l r).
Proof.
  rewrite handle_classify.
  destruct (classify c) as [lbl|]; [destruct hx|]; simpl; [done| |done].
  split; [apply counter_inc_mono|]. split; [apply observations_counter_inc|].
  intros Hl. apply counter_value_inc_other. intros [= _ ->]. by apply (Hl [lbl]).
Qed.

(** ** Registry effects of [http_request] *)

(** No counter of the registry ever decreases, and a histogram series only
    grows at its end: one [http_request] call extends every series. *)
Theorem http_request_monotone ep (e : probe_env) (r : registry) n l :
  counter_value n l r <= counter_value n l (fst (http_request ep e r)) /\
  observations n l r `prefix_of` observations n l (fst (http_request ep e r)).
Proof.
  unfold http_request.
  destruct (get_result e) as [code|c].
  2:{ destruct (handle_series ep c (handler_exn e) r n l) as (H1 & H2 & _). rewrite H2. done. }
  destruct (inc_exn e) as [c|].
  { destruct (handle_series ep c (handler_exn e) r n l) as (H1 & H2 & _). rewrite H2. done. }
  pose proof (counter_inc_mono n l http_requests_completed ["GET"; ep; pretty code] r) as M.
  pose proof (observations_counter_inc n l http_requests_completed ["GET"; ep; pretty code] r)
    as O.
  destruct (observe_exn e) as [c|].
  - destruct (handle_series ep c (handler_exn e)
                (counter_inc http_requests_completed ["GET"; ep; pretty code] r) n l) as (H1 & H2 & _).
    split; [lia|]. rewrite H2, O. done.
  - simpl. rewrite counter_value_observe. split; [done|].
    rewrite <- O at 1. apply observations_observe_prefix.
Qed.

(** A call for one endpoint touches only series labelled with the method
    "GET" and that endpoint: every other series keeps its value. *)
Theorem http_request_local ep (e : probe_env) (r : registry) n l :
  (forall rest, l <> "GET" :: ep :: rest) ->
  counter_value n l (fst (http_request ep e r)) = counter_value n l r /\
  observations n l (fst (http_request ep e r)) = observations n l r.
Proof.
  intros Hl. unfold http_request.
  destruct (get_result e) as [code|c].
  2:{ destruct (handle_series ep c (handler_exn e) r n l) as (_ & H2 & H3). auto. }
  destruct (inc_exn e) as [c|].
  { destruct (handle_series ep c (handler_exn e) r n l) as (_ & H2 & H3). auto. }
  assert (C : counter_value n l (counter_inc http_requests_completed ["GET"; ep; pretty code] r)
              = counter_value n l r).
  { apply counter_value_inc_other. intros [= _ ->]. by apply (Hl [pretty code]). }
  pose proof (observations_counter_inc n l http_requests_completed ["GET"; ep; pretty code] r)
    as O.
  destruct (observe_exn e) as [c|].
  - destruct (handle_series ep c (handler_exn e)
                (counter_inc http_requests_completed ["GET"; ep; pretty code] r) n l) as (_ & H2 & H3).
    rewrite H3 by done. rewrite H2. auto.
  - simpl. rewrite counter_value_observe, observations_observe_other; [auto|].
    intros [= _ ->]. by apply (Hl []).
Qed.

(** A request that raises records no latency: when [requests.get] raises,
    no histogram series changes. *)
Theorem http_request_failure_no_latency ep (e : probe_env) (r : registry) c n l :
  get_result e = Raise c ->
  observations n l (fst (http_request ep e r)) = observations n l r.
Proof.
  intros Hg. unfold http_request. rewrite Hg.
  apply (handle_series ep c (handler_exn e) r n l).
Qed.

(** ** The server block and refused documents *)

Lemma verify_config_server (kvs : list (string * yval)) c' b :
  verify_config (YDict kvs) = Ok (c', b) ->
  exists c1, verify_server (YDict kvs) = Ok c1 /\ py_getitem c' "server" = py_getitem c1 "server".
Proof.
  intros H. unfold verify_config in H. bind_step H. exists a. split; [done|].
  destruct (verify_server_keeps kvs a "target" ltac:(discriminate) E) as (kvs1 & -> & _).
  destruct (py_contains "target" (YDict kvs1)) as [[|]|]; cbn [bind negb] in H;
    [| by injection H as <- _ | discriminate].
  bind_step H.
  destruct (py_contains "address" a) as [[|]|]; cbn [bind negb] in H;
    [| by injection H as <- _ | discriminate].
  do 6 bind_step H. injection H as <- _. simpl.
  by rewrite assoc_get_set_ne by discriminate.
Qed.

(** When the document has no [server] block, or one without [port],
    [verify_config] sets [configuration['server']] to [{'port': 8000}]:
    the other keys of such a block are dropped. This happens before the
    target is looked at, whatever the verdict. *)
Theorem verify_config_server_default (kvs : list (string * yval)) c' b :
  (assoc_get "server" kvs = None \/
   exists skvs, assoc_get "server" kvs = Some (YDict skvs) /\ assoc_get "port" skvs = None) ->
  verify_config (YDict kvs) = Ok (c', b) ->
  py_getitem c' "server" = Ok (YDict [("port", YInt 8000)]).
Proof.
  intros Hs H. apply verify_config_server in H as (c1 & Es & ->).
  unfold verify_server in Es. simpl in Es.
  destruct Hs as [Hn|(skvs & Hs & Hp)].
  - rewrite Hn in Es. simpl in Es. injection Es as <-. simpl. by rewrite assoc_get_set_eq.
  - rewrite Hs in Es. simpl in Es. rewrite Hp in Es. simpl in Es.
    injection Es as <-. simpl. by rewrite assoc_get_set_eq.
Qed.

Lemma verify_config_server_default_witness :
  exists c', verify_config (YDict server_host_entries) = Ok (c', true) /\
             py_getitem c' "server" = Ok (YDict [("port", YInt 8000)]).
Proof.
  eexists. split; [reflexivity|].
  refine (verify_config_server_default server_host_entries _ true _ _); [|reflexivity].
  right. exists [("host", YStr "0.0.0.0")]. split; reflexivity.
Defined.

(** When the server step succeeds, a document without a [target] block,
    or whose target is a dict with no [address], is refused:
    [verify_config] returns False instead of raising, with the server
    block already set. *)
Theorem verify_config_missing_target (kvs : list (string * yval)) c1 :
  verify_server (YDict kvs) = Ok c1 ->
  (assoc_get "target" kvs = None \/
   exists tk, assoc_get "target" kvs = Some (YDict tk) /\ assoc_get "address" tk = None) ->
  verify_config (YDict kvs) = Ok (c1, false).
Proof.
  intros Es Ht. unfold verify_config. rewrite Es. cbn [bind].
  destruct (verify_server_keeps kvs c1 "target" ltac:(discriminate) Es) as (kvs1 & -> & Hk).
  simpl. rewrite Hk.
  destruct Ht as [-> | (tk & -> & Ha)]; simpl; [done|]. by rewrite Ha.
Qed.

Lemma verify_config_missing_target_witness :
  verify_config (YDict [("target", YDict [("port", YInt 80)])])
  = Ok (YDict [("target", YDict [("port", YInt 80)]); ("server", YDict [("port", YInt 8000)])],
        false).
Proof.
  apply verify_config_missing_target; [reflexivity|].
  right. exists [("port", YInt 80)]. split; reflexivity.
Defined.

(** The address is never checked: any value, None or a number included,
    is accepted and kept as it is. *)
Theorem verify_config_any_address (a : yval) :
  exists c', verify_config (YDict [("target", YDict [("address", a)])]) = Ok (c', true) /\
             read_field c' "address" = Ok a.
Proof. eexists. split; reflexivity. Qed.

(** ** Loading and reloading *)

Lemma except_ioerror_not_true c : except_ioerror c <> Ok true.
Proof. unfold except_ioerror. by destruct (isinstance c OSError). Qed.

Lemma verified_read c c' fld :
  verify_config c = Ok (c', true) ->
  In fld ["address"; "port"; "pathname"; "protocol"; "frequency"; "timeout"; "verify_ssl"] ->
  exists v, read_field c' fld = Ok v.
Proof.
  intros H Hin.
  destruct (verify_config_true c c' H) as
    (kvs1 & tk & port & pathname & protocol & frequency & timeout & verify_ssl &
     -> & [ad Had] & _).
  rewrite read_verified.
  repeat destruct Hin as [<-|Hin]; try done; lookup_field; eauto.
  rewrite Had. eauto.
Qed.

(** [load_configuration] replaces the global config only by a document
    [verify_config] accepted, and returns True exactly then; on False, on
    a caught [IOError] and on an escaping exception the config is left as
    it was. *)
Theorem load_configuration_adopts_verified config file c' r :
  load_configuration config file = (c', r) ->
  (r = Ok true -> exists doc, file = Loaded (Ok doc) /\ verify_config doc = Ok (c', true)) /\
  (r <> Ok true -> c' = config).
Proof.
  destruct file as [c|[doc|c]]; simpl.
  1,3: intros [= <- <-]; split; [|done]; intros Hr; by apply except_ioerror_not_true in Hr.
  destruct (verify_config doc) as [[c1 [|]]|c] eqn:Ev.
  - destruct (verified_read doc c1 "verify_ssl" Ev ltac:(simpl; tauto)) as [v Hv].
    unfold read_field in Hv. rewrite Hv. intros [= <- <-]. split; [eauto|done].
  - intros [= <- <-]. split; [discriminate|done].
  - intros [= <- <-]. split; [|done]. intros Hr. by apply except_ioerror_not_true in Hr.
Qed.

Lemma load_configuration_adopts_verified_witness :
  exists c', load_configuration (YDict []) (Loaded (Ok probe_document)) = (c', Ok true) /\
             exists doc, verify_config doc = Ok (c', true).
Proof.
  eexists. split; [reflexivity|].
  destruct (proj1 (load_configuration_adopts_verified (YDict []) (Loaded (Ok probe_document))
                     _ (Ok true) eq_refl) eq_refl) as (doc & _ & Hv).
  by exists doc.
Defined.

(** The process only runs on configurations [verify_config] accepted: a
    successful start-up runs on one, and a reload that leaves the process
    running keeps the previous configuration or adopts a verified one. *)
Theorem startup_reload_verified file c c'' :
  (startup file = Running c -> verified c) /\
  (reload (Running c) file = Running c'' -> c'' = c \/ verified c'').
Proof.
  split.
  - unfold startup. destruct (load_configuration (YDict []) file) as [c1 r] eqn:E.
    destruct r as [[|]|]; try discriminate. intros [= <-].
    destruct (load_configuration_adopts_verified _ _ _ _ E) as [H _].
    destruct (H eq_refl) as (doc & _ & Hv). by exists doc.
  - simpl. destruct (load_configuration c file) as [c1 r] eqn:E.
    destruct r as [b|]; [|discriminate]. intros [= <-].
    destruct (load_configuration_adopts_verified _ _ _ _ E) as [H1 H2].
    destruct b.
    + right. destruct (H1 eq_refl) as (doc & _ & Hv). by exists doc.
    + left. by apply H2.
Qed.

Lemma startup_reload_verified_witness :
  startup (Loaded (Ok probe_document)) =
    Running (YDict [("target", YDict [("address", YStr "example.com"); ("frequency", YFloat (Fin 2));
                                      ("port", YInt 80); ("pathname", YStr "/");
                                      ("protocol", YStr "http"); ("timeout", YInt 1);
                                      ("verify_ssl", YBool true)]);
                    ("server", YDict [("port", YInt 8000)])]) /\
  verified (YDict [("target", YDict [("address", YStr "example.com"); ("frequency", YFloat (Fin 2));
                                      ("port", YInt 80); ("pathname", YStr "/");
                                      ("protocol", YStr "http"); ("timeout", YInt 1);
                                      ("verify_ssl", YBool true)]);
                    ("server", YDict [("port", YInt 8000)])]).
Proof.
  split; [reflexivity|].
  apply (proj1 (startup_reload_verified (Loaded (Ok probe_document)) _ (YDict []))).
  reflexivity.
Defined.

(** ** The loop on a verified configuration *)

Lemma verified_spawn c : verified c -> exists a, spawn c = Ok a.
Proof.
  intros [doc H].
  destruct (verify_config_true doc c H) as
    (kvs1 & tk & port & pathname & protocol & frequency & timeout & verify_ssl &
     -> & [ad Had] & _).
  unfold spawn, spawn_at. rewrite !read_verified.
  lookup_field. rewrite Had. cbn [bind]. eexists. reflexivity.
Qed.



Lemma handle_wf ep c hx (r : registry) : registry_wf r -> registry_wf (fst (handle ep c hx r)).
Proof.
  intros Hr. rewrite handle_classify. destruct (classify c); [destruct hx|]; simpl; [done| |done].
  by apply counter_inc_wf.
Qed.

Lemma http_request_wf ep (e : probe_env) (r : registry) :
  registry_wf r -> registry_wf (fst (http_request ep e r)).
Proof.
  intros Hr. unfold http_request.
  destruct (get_result e) as [code|c]; [|by apply handle_wf].
  destruct (inc_exn e) as [c|]; [by apply handle_wf|].
  pose proof (counter_inc_wf http_requests_completed ["GET"; ep; pretty code] r Hr) as H1.
  destruct (observe_exn e) as [c|]; [by apply handle_wf|].
  by apply histogram_observe_wf.
Qed.

(** From a successful start-up, every reachable state of the scheduler
    (ticks, finishing threads and reloads in any order) runs on a
    configuration [verify_config] accepted, so the six reads of an
    iteration never raise; and the registry keeps its three families with
    their kinds. *)
Theorem reachable_invariant file c0 s :
  startup file = Running c0 -> reachable c0 s ->
  verified (s_config s) /\ (exists a, spawn (s_config s) = Ok a) /\
  registry_wf (s_registry s).
Proof.
  intros Hs Hr.
  assert (Hv : verified (s_config s) /\ registry_wf (s_registry s)).
  { unfold reachable in Hr. revert s Hr.
    refine (rtc_ind_r (fun s => verified (s_config s) /\ registry_wf (s_registry s))
              _ _ _); [|intros x y _ [l Hxy] IH].
    - split; [|exact registry_init_wf].
      exact (proj1 (startup_reload_verified file c0 c0) Hs).
    - destruct IH as [IHc IHr]. inversion Hxy; subst; simpl.
      + done.
      + split; [done|]. by apply http_request_wf.
      + split; [|done].
        destruct (proj2 (startup_reload_verified file0 (s_config x) config') H)
          as [->|Hc]; done. }
  destruct Hv as [Hc Hw]. split; [done|]. split; [|done]. by apply verified_spawn.
Qed.

Lemma reachable_invariant_witness :
  exists c0 s, startup (Loaded (Ok probe_document)) = Running c0 /\ reachable c0 s /\
    s_config s <> c0 /\ s_inflight s = [] /\ s_registry s <> registry_init /\
    verified (s_config s) /\ exists a, spawn (s_config s) = Ok a.
Proof.
  pose (c0 := startup_config (Loaded (Ok probe_document))).
  assert (Hs : startup (Loaded (Ok probe_document)) = Running c0) by (vm_compute; reflexivity).
  exists c0. eexists. split; [exact Hs|].
  match goal with |- reachable _ ?s /\ _ => enough (Hr : reachable c0 s) end.
  2:{ unfold reachable.
      eapply rtc_l; [eexists; eapply step_tick; reflexivity|].
      eapply rtc_l; [eexists; eapply (step_finish _ 0 _ env_ok); reflexivity|].
      eapply rtc_l; [eexists; eapply (step_reload _ (Loaded (Ok nan_frequency_document))); reflexivity|].
      apply rtc_refl. }
  destruct (reachable_invariant _ c0 _ Hs Hr) as (Hv & Ha & _).
  split; [exact Hr|].
  split; [vm_compute; discriminate|]. split; [reflexivity|].
  split; [vm_compute; discriminate|]. split; [exact Hv|exact Ha].
Defined.
(** ** Validators, refusals and re-verification *)

(** [check_port], [check_frequency] and [check_timeout] are idempotent: a
    value they return passes the same check again unchanged. *)
Theorem validators_idempotent x v :
  (check_port x = Ok v -> check_port v = Ok v) /\
  (check_frequency x = Ok v -> check_frequency v = Ok v) /\
  (check_timeout x = Ok v -> check_timeout v = Ok v).
Proof.
  split; [|split].
  - intros H. destruct (check_port_ok x v H) as (p & -> & Hp). unfold check_port. simpl.
    destruct (Z.ltb_spec p 1); [lia|]. destruct (Z.ltb_spec 65535 p); [lia|]. done.
  - intros H. destruct (check_rate_ok check_frequency x v (or_introl eq_refl) H) as (f & -> & Hf).
    unfold check_frequency. simpl. by rewrite Hf.
  - intros H. destruct (check_rate_ok check_timeout x v (or_intror eq_refl) H) as (f & -> & Hf).
    unfold check_timeout. simpl. by rewrite Hf.
Qed.

Lemma validators_idempotent_witness :
  check_port (YStr " 8080 ") = Ok (YInt 8080) /\ check_port (YInt 8080) = Ok (YInt 8080) /\
  check_frequency (YInt 2) = Ok (YFloat (Fin 2)) /\
  check_frequency (YFloat (Fin 2)) = Ok (YFloat (Fin 2)).
Proof.
  split; [reflexivity|]. split; [exact (proj1 (validators_idempotent (YStr " 8080 ") (YInt 8080)) eq_refl)|].
  split; [reflexivity|]. exact (proj1 (proj2 (validators_idempotent (YInt 2) _)) eq_refl).
Defined.

(** [verify_config] returns False only for a document that is not a dict,
    which it leaves as it is, or for one without [target], or whose target
    does not contain ["address"] (with [in] as Python evaluates it on the
    target's type). Any other refusal is an exception. *)
Theorem verify_config_false_cases c c' :
  verify_config c = Ok (c', false) ->
  match c with
  | YDict kvs => assoc_get "target" kvs = None \/
                 exists t, assoc_get "target" kvs = Some t /\ py_contains "address" t = Ok false
  | _ => c' = c
  end.
Proof.
  destruct c as [| | | | | |kvs]; try (intros [= <-]; done).
  intros H. unfold verify_config in H. bind_step H. rename a into c1.
  destruct (verify_server_keeps kvs c1 "target" ltac:(discriminate) E) as (kvs1 & -> & Hk).
  simpl in H. rewrite Hk in H.
  destruct (assoc_get "target" kvs) as [t|]; [right|by left]. exists t. split; [done|].
  simpl in H.
  destruct (py_contains "address" t) as [[|]|]; cbn [bind negb] in H; [|done|discriminate].
  do 6 bind_step H. discriminate.
Qed.

Lemma verify_config_false_cases_witness :
  verify_config (YDict [("target", YStr "example.com")])
  = Ok (YDict [("target", YStr "example.com"); ("server", YDict [("port", YInt 8000)])], false) /\
  (assoc_get "target" [("target", YStr "example.com")] = None \/
   exists t, assoc_get "target" [("target", YStr "example.com")] = Some t /\
             py_contains "address" t = Ok false).
Proof.
  split; [reflexivity|].
  exact (verify_config_false_cases (YDict [("target", YStr "example.com")]) _ eq_refl).
Defined.

(** When the server step succeeds and the target is a dict with an
    [address], a [port] that [check_port] rejects makes [verify_config]
    raise the check's exception instead of returning False, so a start-up
    on such a document ends with the uncaught exception (status 1), not
    with [sys.exit(-1)], unless the exception is an [OSError]. *)
Theorem verify_config_bad_port_raises (kvs tk : list (string * yval)) c1 x c :
  verify_server (YDict kvs) = Ok c1 ->
  assoc_get "target" kvs = Some (YDict tk) -> is_Some (assoc_get "address" tk) ->
  assoc_get "port" tk = Some x -> check_port x = Raise c ->
  verify_config (YDict kvs) = Raise c /\
  startup (Loaded (Ok (YDict kvs))) = if isinstance c OSError then Exited 255 else Exited 1.
Proof.
  intros Es Ht Ha Hp Hc.
  assert (H : verify_config (YDict kvs) = Raise c).
  { unfold verify_config. rewrite Es. cbn [bind].
    destruct (verify_server_keeps kvs c1 "target" ltac:(discriminate) Es) as (kvs1 & -> & Hk).
    simpl. rewrite Hk, Ht. simpl.
    rewrite bool_decide_eq_true_2 by done. simpl.
    unfold set_field. simpl. rewrite Hp. simpl. by rewrite Hc. }
  split; [done|]. unfold startup, load_configuration. rewrite H. unfold except_ioerror.
  by destruct (isinstance c OSError).
Qed.

Lemma verify_config_bad_port_raises_witness :
  verify_config (YDict [("target", YDict [("address", YStr "example.com"); ("port", YNone)])])
  = Exc TypeError /\
  startup (Loaded (Ok (YDict [("target", YDict [("address", YStr "example.com");
                                                ("port", YNone)])]))) = Exited 1.
Proof.
  exact (verify_config_bad_port_raises
           [("target", YDict [("address", YStr "example.com"); ("port", YNone)])]
           [("address", YStr "example.com"); ("port", YNone)] _ YNone (Known TypeError)
           eq_refl eq_refl (ex_intro _ _ eq_refl) eq_refl eq_refl).
Defined.

Lemma verify_server_ok (kvs : list (string * yval)) c1 :
  verify_server (YDict kvs) = Ok c1 ->
  exists kvs1 skvs p, c1 = YDict kvs1 /\ assoc_get "server" kvs1 = Some (YDict skvs) /\
    assoc_get "port" skvs = Some (YInt p) /\ (1 <= p <= 65535)%Z.
Proof.
  unfold verify_server. simpl.
  destruct (assoc_get "server" kvs) as [srv|]; simpl.
  - destruct (py_contains "port" srv) as [[|]|]; simpl; [| |intros [=]].
    + destruct (py_getitem srv "port") as [p0|]; simpl; [|intros [=]].
      destruct (check_port p0) as [p'|] eqn:Ep; simpl; [|intros [=]].
      destruct srv as [| | | | | |skvs0]; simpl; try (intros [=]; fail).
      intros [= <-]. apply check_port_ok in Ep as (p & -> & Hp).
      do 3 eexists. split; [reflexivity|]. rewrite assoc_get_set_eq.
      split; [reflexivity|]. rewrite assoc_get_set_eq. eauto.
    + intros [= <-]. do 3 eexists. split; [reflexivity|]. rewrite assoc_get_set_eq.
      split; [reflexivity|]. split; [reflexivity|]. lia.
  - intros [= <-]. do 3 eexists. split; [reflexivity|]. rewrite assoc_get_set_eq.
    split; [reflexivity|]. split; [reflexivity|]. lia.
Qed.

Lemma check_port_in_range p : (1 <= p <= 65535)%Z -> check_port (YInt p) = Ok (YInt p).
Proof.
  intros Hp. unfold check_port. simpl.
  destruct (Z.ltb_spec p 1); [lia|]. destruct (Z.ltb_spec 65535 p); [lia|]. done.
Qed.

Lemma rate_check_ok (chk : yval -> result yval) f :
  chk = check_frequency \/ chk = check_timeout -> rate_ok f -> exists v, chk f = Ok v.
Proof.
  intros Hc [->|(x & -> & Hx)]; destruct Hc as [->| ->]; eauto;
    unfold check_frequency, check_timeout; simpl; rewrite Hx; eauto.
Qed.

(** Verifying an accepted configuration again succeeds: the server port,
    the target port and the rates it holds all pass their checks. *)
Theorem verify_config_reverify c c' :
  verify_config c = Ok (c', true) -> exists c'', verify_config c' = Ok (c'', true).
Proof.
  intros H.
  destruct c as [| | | | | |kvs]; try discriminate.
  destruct (verify_config_server kvs c' true H) as (c1 & Es & Hsrv).
  destruct (verify_server_ok kvs c1 Es) as (kvs1 & skvs & p & -> & HS & HP & Hp).
  destruct (verify_config_true _ c' H) as
    (L & tk & port & pathname & protocol & frequency & timeout & verify_ssl &
     -> & [ad Had] & (q & -> & Hq) & Hf & Ht).
  simpl in Hsrv. rewrite HS in Hsrv. rewrite assoc_get_set_ne in Hsrv by discriminate.
  destruct (rate_check_ok check_frequency frequency (or_introl eq_refl) Hf) as [vf Hvf].
  destruct (rate_check_ok check_timeout timeout (or_intror eq_refl) Ht) as [vt Hvt].
  unfold verify_config, verify_server. simpl.
  rewrite assoc_get_set_ne by discriminate.
  destruct (assoc_get "server" L) as [srv|] eqn:ES; [|discriminate].
  injection Hsrv as ->. simpl. rewrite HP. simpl. rewrite (check_port_in_range p Hp). simpl.
  rewrite assoc_get_set_ne by discriminate. rewrite assoc_get_set_eq. simpl.
  unfold verified_target, set_field. simpl.
  repeat (rewrite assoc_get_set; simpl).
  rewrite Had. simpl. rewrite (check_port_in_range q Hq). simpl.
  repeat (rewrite assoc_get_set; simpl).
  rewrite Hvf. simpl. repeat (rewrite assoc_get_set; simpl). rewrite Hvt. simpl.
  repeat (rewrite assoc_get_set; simpl).
  eexists. reflexivity.
Qed.

(** ** Witnesses *)

Lemma verify_config_reverify_witness :
  exists c', verify_config probe_document = Ok (c', true) /\
             exists c'', verify_config c' = Ok (c'', true).
Proof.
  eexists. split; [reflexivity|].
  exact (verify_config_reverify probe_document _ eq_refl).
Defined.

Lemma verify_config_fields_witness :
  exists c', verify_config probe_document = Ok (c', true) /\
    read_field c' "frequency" =
    field_or_default [("address", YStr "example.com"); ("frequency", YInt 2)]
      "frequency" (YInt 1) check_frequency /\
    read_field c' "port" =
    field_or_default [("address", YStr "example.com"); ("frequency", YInt 2)]
      "port" (YInt 80) check_port.
Proof.
  eexists. split; [reflexivity|].
  destruct (verify_config_fields
              [("target", YDict [("address", YStr "example.com"); ("frequency", YInt 2)])]
              [("address", YStr "example.com"); ("frequency", YInt 2)] _ eq_refl eq_refl)
    as (_ & Hport & _ & _ & Hfreq & _).
  split; [exact Hfreq | exact Hport].
Defined.

Lemma http_request_local_witness :
  counter_value http_requests_completed ["GET"; "http://other.org:80/"; "200"]
    (fst (http_request "http://example.com:80/" env_ok registry_init))
  = counter_value http_requests_completed ["GET"; "http://other.org:80/"; "200"] registry_init.
Proof.
  refine (proj1 (http_request_local "http://example.com:80/" env_ok registry_init
                   http_requests_completed ["GET"; "http://other.org:80/"; "200"] _)).
  intros rest [=].
Defined.

Lemma http_request_failure_no_latency_witness :
  observations latency_histogram ["GET"; "http://example.com:80/"]
    (fst (http_request "http://example.com:80/" (get_raises (Known ReadTimeout)) registry_init))
  = observations latency_histogram ["GET"; "http://example.com:80/"] registry_init.
Proof.
  exact (http_request_failure_no_latency "http://example.com:80/" (get_raises (Known ReadTimeout))
           registry_init (Known ReadTimeout) _ _ eq_refl).
Defined.
